(** * BME280 capture decoder: a shallow embedding of [bme_280_data.py]

    The script turns a byte capture (one calibration block followed by
    sentinel-prefixed sample frames) into three lists of physical values.
    Python integers are unbounded, so they are embedded as [Z]; [>>] on a
    Python int is the floor shift [Z.shiftr], [<<] is [Z.shiftl], [|] is
    [Z.lor], [&] is [Z.land] and [//] is floor division.  Indexing a
    [bytes] object out of range raises [IndexError]; every read is therefore
    kept in a small error monad. *)

From Stdlib Require Import String Strings.Byte.
From Stdlib Require Import ZArith QArith Qround List Bool Lia.
Import ListNotations.

Local Open Scope Z_scope.

(** ** Outcomes of running Python code *)

Inductive exn : Type :=
| ValueError (msg : string)
| IndexError
| ZeroDivisionError.

(** [OutOfFuel] is not a Python exception: it marks a run of the [while]
    loop that was cut short by the fuel of the model. *)
Inductive outcome (A : Type) : Type :=
| Done (a : A)
| Raised (e : exn)
| OutOfFuel.

Arguments Done {A} a.
Arguments Raised {A} e.
Arguments OutOfFuel {A}.

Definition bind {A B : Type} (m : outcome A) (k : A -> outcome B) : outcome B :=
  match m with
  | Done a => k a
  | Raised e => Raised e
  | OutOfFuel => OutOfFuel
  end.

Notation "x <- m ;; k" := (bind m (fun x => k))
  (at level 61, m at next level, right associativity).

(** ** Python values that end up in the result lists

    [T / 100.0] is Python's true division: the double nearest to the exact
    quotient.  The model keeps the exact quotient as a rational, so the last
    rounding to binary64 is not represented.  The [else] branch of the
    pressure calculator stores the int [0], which is kept apart. *)

Inductive pyval : Type :=
| PyInt (z : Z)
| PyFloat (q : Q).

Definition pynum (v : pyval) : Q :=
  match v with
  | PyInt z => inject_Z z
  | PyFloat q => q
  end.

Definition truediv (n : Z) (d : positive) : pyval := PyFloat (n # d).

(** [a // b] on Python ints. *)
Definition floordiv (a b : Z) : outcome Z :=
  if b =? 0 then Raised ZeroDivisionError else Done (a / b).

(** ** Bytes objects *)

Definition byte_val (b : byte) : Z := Z.of_N (Byte.to_N b).

(** [s[k]] for a non-negative index. *)
Definition getitem (s : list byte) (k : nat) : outcome Z :=
  match nth_error s k with
  | Some b => Done (byte_val b)
  | None => Raised IndexError
  end.

(** [s[lo:hi]] for non-negative bounds: never raises, may come out short. *)
Definition slice (s : list byte) (lo hi : nat) : list byte :=
  firstn (hi - lo) (skipn lo s).

(** [s[lo:]] *)
Definition slice_from (s : list byte) (lo : nat) : list byte := skipn lo s.

(** ** 1) Calibration *)

Definition u16 (lsb msb : Z) : Z := Z.lor (Z.shiftl msb 8) lsb.

Definition s16 (lsb msb : Z) : Z :=
  let val := Z.lor (Z.shiftl msb 8) lsb in
  if Z.land val 0x8000 =? 0 then val else val - 65536.

(** [struct.unpack("b", bytes([x]))[0]]: one byte read as a signed char. *)
Definition unpack_b (x : Z) : Z := if x <? 128 then x else x - 256.

Record calibration : Type := mkCalibration {
  dig_T1 : Z; dig_T2 : Z; dig_T3 : Z;
  dig_P1 : Z; dig_P2 : Z; dig_P3 : Z; dig_P4 : Z; dig_P5 : Z;
  dig_P6 : Z; dig_P7 : Z; dig_P8 : Z; dig_P9 : Z;
  dig_H1 : Z; dig_H2 : Z; dig_H3 : Z; dig_H4 : Z; dig_H5 : Z; dig_H6 : Z
}.

(** The assignments of section 1 of the script, in source order, on the
    slice [calib]. *)
Definition read_calib (calib : list byte) : outcome calibration :=
  c0 <- getitem calib 0 ;; c1 <- getitem calib 1 ;;
  let T1 := u16 c0 c1 in
  c2 <- getitem calib 2 ;; c3 <- getitem calib 3 ;;
  let T2 := s16 c2 c3 in
  c4 <- getitem calib 4 ;; c5 <- getitem calib 5 ;;
  let T3 := s16 c4 c5 in
  c6 <- getitem calib 6 ;; c7 <- getitem calib 7 ;;
  let P1 := u16 c6 c7 in
  c8 <- getitem calib 8 ;; c9 <- getitem calib 9 ;;
  let P2 := s16 c8 c9 in
  c10 <- getitem calib 10 ;; c11 <- getitem calib 11 ;;
  let P3 := s16 c10 c11 in
  c12 <- getitem calib 12 ;; c13 <- getitem calib 13 ;;
  let P4 := s16 c12 c13 in
  c14 <- getitem calib 14 ;; c15 <- getitem calib 15 ;;
  let P5 := s16 c14 c15 in
  c16 <- getitem calib 16 ;; c17 <- getitem calib 17 ;;
  let P6 := s16 c16 c17 in
  c18 <- getitem calib 18 ;; c19 <- getitem calib 19 ;;
  let P7 := s16 c18 c19 in
  c20 <- getitem calib 20 ;; c21 <- getitem calib 21 ;;
  let P8 := s16 c20 c21 in
  c22 <- getitem calib 22 ;; c23 <- getitem calib 23 ;;
  let P9 := s16 c22 c23 in
  H1 <- getitem calib 24 ;;
  c25 <- getitem calib 25 ;; c26 <- getitem calib 26 ;;
  let H2 := s16 c25 c26 in
  H3 <- getitem calib 27 ;;
  c28 <- getitem calib 28 ;; c29 <- getitem calib 29 ;;
  let H4 := Z.lor (Z.shiftl c28 4) (Z.land c29 0x0F) in
  c30 <- getitem calib 30 ;; c29' <- getitem calib 29 ;;
  let H5 := Z.lor (Z.shiftl c30 4) (Z.shiftr c29' 4) in
  c31 <- getitem calib 31 ;;
  let H6 := unpack_b c31 in
  Done (mkCalibration T1 T2 T3 P1 P2 P3 P4 P5 P6 P7 P8 P9 H1 H2 H3 H4 H5 H6).

(** Sentinel check, slice, then the field assignments. *)
Definition parse (data : list byte) : outcome calibration :=
  d0 <- getitem data 0 ;;
  if negb (d0 =? 0xFE) then Raised (ValueError "Calibration start is not FE.")
  else read_calib (slice data 1 33).

(** ** 2) Frame analysis *)

(** *** Temperature calculator *)

Definition t_fine (cal : calibration) (adc_T : Z) : Z :=
  let var1 := Z.shiftr ((Z.shiftr adc_T 3 - Z.shiftl (dig_T1 cal) 1) * dig_T2 cal) 11 in
  let var2 :=
    Z.shiftr
      (Z.shiftr ((Z.shiftr adc_T 4 - dig_T1 cal) * (Z.shiftr adc_T 4 - dig_T1 cal)) 12
       * dig_T3 cal) 14 in
  var1 + var2.

Definition temperature (cal : calibration) (adc_T : Z) : pyval :=
  let T := Z.shiftr (t_fine cal adc_T * 5 + 128) 8 in
  truediv T 100.

(** *** Pressure calculator *)

(** [var2] as it stands when the [if] is reached. *)
Definition pressure_var2 (cal : calibration) (tf : Z) : Z :=
  let var1 := tf - 128000 in
  let var2 := var1 * var1 * dig_P6 cal in
  let var2 := var2 + Z.shiftl (var1 * dig_P5 cal) 17 in
  var2 + Z.shiftl (dig_P4 cal) 35.

(** [var1] as it stands when the [if] is reached. *)
Definition pressure_var1 (cal : calibration) (tf : Z) : Z :=
  let var1 := tf - 128000 in
  let var1 := Z.shiftr (var1 * var1 * dig_P3 cal) 8 + Z.shiftl (var1 * dig_P2 cal) 12 in
  Z.shiftr ((Z.shiftl 1 47 + var1) * dig_P1 cal) 33.

(** The dividend of the [//] on the pressure path. *)
Definition pressure_dividend (cal : calibration) (tf adc_P : Z) : Z :=
  let p := 1048576 - adc_P in
  (Z.shiftl p 31 - pressure_var2 cal tf) * 3125.

(** [p = (((p << 31) - var2) * 3125) // var1] *)
Definition pressure_quotient (cal : calibration) (tf adc_P : Z) : outcome Z :=
  floordiv (pressure_dividend cal tf adc_P) (pressure_var1 cal tf).

Definition pressure (cal : calibration) (tf adc_P : Z) : outcome pyval :=
  let var1 := pressure_var1 cal tf in
  if negb (var1 =? 0) then
    p <- pressure_quotient cal tf adc_P ;;
    let var1 := Z.shiftr (dig_P9 cal * Z.shiftr p 13 * Z.shiftr p 13) 25 in
    let var2 := Z.shiftr (dig_P8 cal * p) 19 in
    let p := Z.shiftr (p + var1 + var2) 8 + Z.shiftl (dig_P7 cal) 4 in
    Done (truediv p 25600)
  else
    Done (PyInt 0).

(** *** Humidity calculator *)

(** [v_x1] before the clamp. *)
Definition humidity_raw (cal : calibration) (tf adc_H : Z) : Z :=
  let v_x1 := tf - 76800 in
  let v_x1 :=
    Z.shiftr (Z.shiftl adc_H 14 - Z.shiftl (dig_H4 cal) 20 - dig_H5 cal * v_x1 + 16384) 15
    * Z.shiftr
        ((Z.shiftr
            (Z.shiftr (v_x1 * dig_H6 cal) 10
             * (Z.shiftr (v_x1 * dig_H3 cal) 11 + 32768)) 10
          + 2097152) * dig_H2 cal + 8192) 14 in
  v_x1 - Z.shiftr (Z.shiftr (Z.shiftr v_x1 15 * Z.shiftr v_x1 15) 7 * dig_H1 cal) 4.

(** [v_x1 = max(0, min(v_x1, 419430400))] *)
Definition humidity_clamped (cal : calibration) (tf adc_H : Z) : Z :=
  Z.max 0 (Z.min (humidity_raw cal tf adc_H) 419430400).

Definition humidity (cal : calibration) (tf adc_H : Z) : pyval :=
  truediv (Z.shiftr (humidity_clamped cal tf adc_H) 12) 1024.

(** *** The scan loop *)

Record state : Type := mkState {
  i : nat;
  temperatures : list pyval;
  pressures : list pyval;
  humidities : list pyval
}.

Definition adc20 (hi mid lo : Z) : Z :=
  Z.lor (Z.lor (Z.shiftl hi 12) (Z.shiftl mid 4)) (Z.shiftr lo 4).

Definition adc16 (hi lo : Z) : Z := Z.lor (Z.shiftl hi 8) lo.

(** The three calculators on one ADC triplet, in source order. *)
Definition compute (cal : calibration) (adc_T adc_P adc_H : Z)
  : outcome (pyval * pyval * pyval) :=
  let tf := t_fine cal adc_T in
  let temp := temperature cal adc_T in
  pres <- pressure cal tf adc_P ;;
  let hum := humidity cal tf adc_H in
  Done (temp, pres, hum).

(** One pass through the body of the [while]. *)
Definition loop_body (cal : calibration) (frames : list byte) (st : state)
  : outcome state :=
  f0 <- getitem frames (i st) ;;
  if negb (f0 =? 0xFF) then
    Done (mkState (i st + 1) (temperatures st) (pressures st) (humidities st))
  else
    b1 <- getitem frames (i st + 1) ;;
    b2 <- getitem frames (i st + 2) ;;
    b3 <- getitem frames (i st + 3) ;;
    let adc_T := adc20 b1 b2 b3 in
    b4 <- getitem frames (i st + 4) ;;
    b5 <- getitem frames (i st + 5) ;;
    b6 <- getitem frames (i st + 6) ;;
    let adc_P := adc20 b4 b5 b6 in
    b7 <- getitem frames (i st + 7) ;;
    b8 <- getitem frames (i st + 8) ;;
    let adc_H := adc16 b7 b8 in
    m <- compute cal adc_T adc_P adc_H ;;
    let '(temp, pres, hum) := m in
    Done (mkState (i st + 9)
                  (temperatures st ++ [temp])
                  (pressures st ++ [pres])
                  (humidities st ++ [hum])).

(** [while i + 8 < len(frames): ...] *)
Fixpoint while_loop (cal : calibration) (frames : list byte) (fuel : nat) (st : state)
  : outcome state :=
  if (i st + 8 <? length frames)%nat then
    match fuel with
    | O => OutOfFuel
    | S fuel' => st' <- loop_body cal frames st ;; while_loop cal frames fuel' st'
    end
  else Done st.

Definition init : state := mkState 0 [] [] [].

(** The loop run from the initial state.  The cursor moves forward on every
    pass, so [length frames] passes are always enough. *)
Definition scan (cal : calibration) (frames : list byte) : outcome state :=
  while_loop cal frames (length frames) init.

(** Sections 1 and 2 of the script. *)
Definition main (data : list byte) : outcome state :=
  cal <- parse data ;;
  let frames := slice_from data 33 in
  scan cal frames.

(** The calibration line and the first two frame lines of [hex_data]. *)
Definition capture_head : list byte :=
  [xfe; xc9; x6d; x35; x67; x32; x00; x9f; x8d; x41; xd6; xd0; x0b; xe7; x1f; x06; x00;
   xf9; xff; xac; x26; x0a; xd8; xbd; x10; x4b; x70; x01; x00; x13; x20; x03; x1e;
   xff; x7f; x3e; x00; x5d; x91; x00; x76; xda;
   xff; x7f; x48; x00; x5d; x93; x00; x76; xd6].

(** ** Closed forms and reference readings used in the statements *)

(** The reading of the spec's data-model table: a 12-bit pattern taken as a
    two's-complement number.  The script has no such step; the definition is
    only there to compare against. *)
Definition twos_complement12 (pattern : Z) : Z :=
  if Z.testbit pattern 11 then pattern - 4096 else pattern.

(** The capture's calibration block with calib[28] = 0xFF and calib[30] = 0x80. *)
Definition calib_top_bit : list byte :=
  [xfe; xc9; x6d; x35; x67; x32; x00; x9f; x8d; x41; xd6; xd0; x0b; xe7; x1f; x06; x00;
   xf9; xff; xac; x26; x0a; xd8; xbd; x10; x4b; x70; x01; x00; xff; x20; x80; x1e].

(** What the pressure calculator stores, in closed form. *)
Definition pressure_value (cal : calibration) (tf adc_P : Z) : pyval :=
  if pressure_var1 cal tf =? 0 then PyInt 0
  else
    let p := pressure_dividend cal tf adc_P / pressure_var1 cal tf in
    let var1 := Z.shiftr (dig_P9 cal * Z.shiftr p 13 * Z.shiftr p 13) 25 in
    let var2 := Z.shiftr (dig_P8 cal * p) 19 in
    truediv (Z.shiftr (p + var1 + var2) 8 + Z.shiftl (dig_P7 cal) 4) 25600.

(** The spec's wording of the temperature formula: a sign-preserving right
    shift by [n] is floor division by [2 ^ n]. *)
Definition asr (a n : Z) : Z := a / 2 ^ n.

Definition spec_temperature (T1 T2 T3 adc_T : Z) : Q :=
  let var1 := asr ((asr adc_T 3 - Z.shiftl T1 1) * T2) 11 in
  let x := asr adc_T 4 - T1 in
  let var2 := asr (asr (x * x) 12 * T3) 14 in
  let t_fine := var1 + var2 in
  asr (t_fine * 5 + 128) 8 # 100.

(** A calibration set whose pressure dividend is negative. *)
Definition cal_negative_dividend : calibration :=
  mkCalibration 28105 26421 50 7 0 0 32767 0 0 0 0 0 75 368 0 304 50 30.

(** The byte at index [k], 0 when there is none. *)
Definition byte_at (s : list byte) (k : nat) : Z :=
  match nth_error s k with
  | Some b => byte_val b
  | None => 0
  end.

(** The eight bytes after a sentinel at index [k]: [frames[k+1 : k+9]]. *)
Definition payload_at (frames : list byte) (k : nat) : list byte :=
  firstn 8 (skipn (k + 1) frames).

Definition payload_adc_T (payload : list byte) : Z :=
  adc20 (byte_at payload 0) (byte_at payload 1) (byte_at payload 2).

Definition payload_adc_P (payload : list byte) : Z :=
  adc20 (byte_at payload 3) (byte_at payload 4) (byte_at payload 5).

Definition payload_adc_H (payload : list byte) : Z :=
  adc16 (byte_at payload 6) (byte_at payload 7).

Definition measurement : Type := (pyval * pyval * pyval)%type.

Definition m_temperature (m : measurement) : pyval := fst (fst m).
Definition m_pressure (m : measurement) : pyval := snd (fst m).
Definition m_humidity (m : measurement) : pyval := snd m.

(** What one pass stores for a frame with the given payload. *)
Definition measure (cal : calibration) (payload : list byte) : measurement :=
  let adc_T := payload_adc_T payload in
  (temperature cal adc_T,
   pressure_value cal (t_fine cal adc_T) (payload_adc_P payload),
   humidity cal (t_fine cal adc_T) (payload_adc_H payload)).

(** The state after a pass that stored [m]. *)
Definition push (st : state) (m : measurement) : state :=
  mkState (i st + 9)
          (temperatures st ++ [m_temperature m])
          (pressures st ++ [m_pressure m])
          (humidities st ++ [m_humidity m]).

(** The state after a pass that skipped one byte. *)
Definition skip1 (st : state) : state :=
  mkState (i st + 1) (temperatures st) (pressures st) (humidities st).

(** A state with cursor [n] whose lists are those of [st] followed by [ms]. *)
Definition extend (st : state) (n : nat) (ms : list measurement) : state :=
  mkState n
          (temperatures st ++ map m_temperature ms)
          (pressures st ++ map m_pressure ms)
          (humidities st ++ map m_humidity ms).

(** The payloads the loop picks out of a buffer, front to back, as a
    two-mode walk over the list: [skip = 0] looks for a sentinel, [skip > 0]
    steps over the payload of the frame just taken. *)
Fixpoint decode_aux (skip : nat) (l : list byte) : list (list byte) :=
  match l with
  | [] => []
  | b :: rest =>
      match skip with
      | S k => decode_aux k rest
      | O =>
          if (8 <=? length rest)%nat then
            if byte_val b =? 0xFF then firstn 8 rest :: decode_aux 8 rest
            else decode_aux 0 rest
          else []
      end
  end.

Definition decode (l : list byte) : list (list byte) := decode_aux 0 l.

(** A buffer laid out as frames, each preceded by a (possibly empty) gap. *)
Definition layout (items : list (list byte * list byte)) : list byte :=
  concat (map (fun it => fst it ++ xff :: snd it) items).

Definition no_sentinel (gap : list byte) : Prop := Forall (fun b => b <> xff) gap.

Definition well_formed (it : list byte * list byte) : Prop :=
  no_sentinel (fst it) /\ length (snd it) = 8%nat.

(** The first frame line of the capture, the calibration set of the
    capture, and the same set with P1 set to 0. *)
Definition first_frame : list byte :=
  [xff; x7f; x3e; x00; x5d; x91; x00; x76; xda].

Definition first_payload : list byte := [x7f; x3e; x00; x5d; x91; x00; x76; xda].

Definition second_payload : list byte := [x7f; x48; x00; x5d; x93; x00; x76; xd6].

Definition capture_cal : calibration :=
  mkCalibration 28105 26421 50 36255 (-10687) 3024 8167 6 (-7) 9900 (-10230) 4285
                75 368 0 304 50 30.

Definition cal_P1_zero : calibration :=
  mkCalibration 28105 26421 50 0 (-10687) 3024 8167 6 (-7) 9900 (-10230) 4285
                75 368 0 304 50 30.

(** ** 3) Results *)

(** [xs[k]] on a Python list, for a non-negative index. *)
Definition list_getitem (xs : list pyval) (k : nat) : outcome pyval :=
  match nth_error xs k with
  | Some v => Done v
  | None => Raised IndexError
  end.

(** The loop of section 3 over the indices [idxs]: each row holds the four
    values handed to the format string, read in the order the f-string
    evaluates them.  The text that [print] makes of a row is not modelled. *)
Fixpoint report_rows (st : state) (idxs : list nat)
  : outcome (list (nat * pyval * pyval * pyval)) :=
  match idxs with
  | [] => Done []
  | idx :: more =>
      t <- list_getitem (temperatures st) idx ;;
      p <- list_getitem (pressures st) idx ;;
      h <- list_getitem (humidities st) idx ;;
      rows <- report_rows st more ;;
      Done ((idx, t, p, h) :: rows)
  end.

(** [for idx in range(len(temperatures)): print(...)] *)
Definition report (st : state) : outcome (list (nat * pyval * pyval * pyval)) :=
  report_rows st (seq 0 (length (temperatures st))).

(** ** Value ranges used in the statements *)

Definition in_u8 (z : Z) : Prop := 0 <= z <= 255.
Definition in_u16 (z : Z) : Prop := 0 <= z <= 65535.
Definition in_s16 (z : Z) : Prop := -32768 <= z <= 32767.
Definition in_s8 (z : Z) : Prop := -128 <= z <= 127.

(** The rows of measurements [ms], numbered from [k]. *)
Fixpoint rows_from (k : nat) (ms : list measurement)
  : list (nat * pyval * pyval * pyval) :=
  match ms with
  | [] => []
  | m :: more => (k, m_temperature m, m_pressure m, m_humidity m) :: rows_from (S k) more
  end.

(** * Properties *)

(** ** Bytes and indexing *)

Lemma byte_val_range (b : byte) : 0 <= byte_val b <= 255.
Proof.
  unfold byte_val. pose proof (Byte.to_N_bounded b). lia.
Qed.

Lemma byte_val_inj (a b : byte) : byte_val a = byte_val b -> a = b.
Proof.
  unfold byte_val. intros H. apply N2Z.inj in H.
  pose proof (Byte.of_to_N a) as Ha. pose proof (Byte.of_to_N b) as Hb.
  rewrite H in Ha. congruence.
Qed.

Lemma byte_val_eqb (b c : byte) : (byte_val b =? byte_val c) = true <-> b = c.
Proof.
  rewrite Z.eqb_eq. split; [apply byte_val_inj | now intros ->].
Qed.

Lemma getitem_lt (s : list byte) (k : nat) :
  (k < length s)%nat -> exists b, nth_error s k = Some b /\ getitem s k = Done (byte_val b).
Proof.
  intros H. unfold getitem.
  destruct (nth_error s k) as [b|] eqn:E.
  - now exists b.
  - apply nth_error_None in E. lia.
Qed.

Lemma getitem_ge (s : list byte) (k : nat) :
  (length s <= k)%nat -> getitem s k = Raised IndexError.
Proof.
  intros H. unfold getitem. apply nth_error_None in H. now rewrite H.
Qed.

Lemma getitem_nth (s : list byte) (k : nat) (b : byte) :
  nth_error s k = Some b -> getitem s k = Done (byte_val b).
Proof. unfold getitem. now intros ->. Qed.

(** ** Calibration parsing *)

(** A slice with fewer than 32 bytes makes one of the reads fail. *)
Lemma read_calib_short (calib : list byte) :
  (length calib < 32)%nat -> read_calib calib = Raised IndexError.
Proof.
  intros H.
  do 32 (destruct calib as [|? calib]; [reflexivity|]).
  simpl in H. lia.
Qed.

Lemma read_calib_long (calib : list byte) :
  (32 <= length calib)%nat -> exists cal, read_calib calib = Done cal.
Proof.
  intros H.
  do 32 (destruct calib as [|? calib]; [simpl in H; lia|]).
  eexists. reflexivity.
Qed.

Lemma slice_1_33_length (b : byte) (rest : list byte) :
  length (slice (b :: rest) 1 33) = Nat.min 32 (length rest).
Proof. unfold slice. simpl skipn. now rewrite length_firstn. Qed.

Lemma parse_cons (b : byte) (rest : list byte) :
  parse (b :: rest) =
  if negb (byte_val b =? 0xFE)
  then Raised (ValueError "Calibration start is not FE.")
  else read_calib (slice (b :: rest) 1 33).
Proof. reflexivity. Qed.

Lemma parse_bad_sentinel (b : byte) (rest : list byte) :
  b <> xfe -> parse (b :: rest) = Raised (ValueError "Calibration start is not FE.").
Proof.
  intros Hb. rewrite parse_cons.
  destruct (Z.eqb_spec (byte_val b) 0xFE) as [E|E]; [|reflexivity].
  exfalso. apply Hb. apply byte_val_inj. exact E.
Qed.

Lemma parse_short (rest : list byte) :
  (length rest < 32)%nat -> parse (xfe :: rest) = Raised IndexError.
Proof.
  intros H. rewrite parse_cons. change (byte_val xfe =? 0xFE) with true. cbn [negb].
  apply read_calib_short. rewrite slice_1_33_length. lia.
Qed.

Lemma parse_long (rest : list byte) :
  (32 <= length rest)%nat -> exists cal, parse (xfe :: rest) = Done cal.
Proof.
  intros H. rewrite parse_cons. change (byte_val xfe =? 0xFE) with true. cbn [negb].
  apply read_calib_long. rewrite slice_1_33_length. lia.
Qed.

(** C6 (as the code has it): the script raises [ValueError] exactly when the
    buffer has a byte 0 and that byte is not 0xFE; an empty buffer, or one that
    starts with 0xFE but has fewer than 33 bytes, fails with [IndexError]
    instead; parsing succeeds exactly when byte 0 is 0xFE and at least 33
    bytes are present. *)
Theorem parse_outcome (data : list byte) :
  (parse data = Raised (ValueError "Calibration start is not FE.")
   <-> exists b rest, data = b :: rest /\ b <> xfe)
  /\ (parse data = Raised IndexError
      <-> data = [] \/ exists rest, data = xfe :: rest /\ (length data < 33)%nat)
  /\ ((exists cal, parse data = Done cal)
      <-> exists rest, data = xfe :: rest /\ (33 <= length data)%nat).
Proof.
  destruct data as [|b rest].
  - split; [split | split; split].
    + discriminate.
    + intros (b & rest & H & _). discriminate.
    + now left.
    + reflexivity.
    + intros [cal H]. discriminate.
    + intros (rest & H & _). discriminate.
  - destruct (Byte.byte_eq_dec b xfe) as [->|Hb].
    + destruct (Nat.lt_ge_cases (length rest) 32) as [Hs|Hl].
      * rewrite (parse_short rest Hs). split; [split | split; split].
        -- discriminate.
        -- intros (b & r & H & Hb). congruence.
        -- intros _. right. exists rest. split; [reflexivity | simpl; lia].
        -- reflexivity.
        -- intros [cal H]. discriminate.
        -- intros (r & H & Hlen). injection H as <-. simpl in Hlen. lia.
      * destruct (parse_long rest Hl) as [cal Hcal]. rewrite Hcal.
        split; [split | split; split].
        -- discriminate.
        -- intros (b & r & H & Hb). congruence.
        -- discriminate.
        -- intros [H | (r & H & Hlen)]; [discriminate|].
           injection H as <-. simpl in Hlen. lia.
        -- intros _. exists rest. split; [reflexivity | simpl; lia].
        -- intros _. now exists cal.
    + rewrite (parse_bad_sentinel b rest Hb). split; [split | split; split].
      * intros _. exists b, rest. now split.
      * reflexivity.
      * discriminate.
      * intros [H | (r & H & _)]; [discriminate | congruence].
      * intros [cal H]. discriminate.
      * intros (r & H & _). congruence.
Qed.

(** Instance of [parse_outcome] on the calibration line of the capture. *)
Lemma parse_outcome_witness :
  (exists rest, capture_head = xfe :: rest /\ (33 <= length capture_head)%nat)
  /\ exists cal, parse capture_head = Done cal.
Proof.
  assert (H : exists rest, capture_head = xfe :: rest /\ (33 <= length capture_head)%nat).
  { eexists. split; [reflexivity | simpl; lia]. }
  split; [exact H|].
  exact (proj2 (proj2 (proj2 (parse_outcome capture_head))) H).
Defined.

(** C6 (as the spec words it) fails: a buffer that starts with the sentinel
    but is too short does not end in the sentinel's [ValueError]. *)
Lemma parse_short_not_value_error :
  (length [xfe] < 33)%nat
  /\ parse [xfe] = Raised IndexError
  /\ forall msg, parse [xfe] <> Raised (ValueError msg).
Proof.
  split; [simpl; lia|]. split; [reflexivity|]. intros msg H. discriminate H.
Qed.

(** ** The packed humidity coefficients *)

Lemma lor_lt_pow2 (a b n : Z) :
  0 < n -> 0 <= a < 2 ^ n -> 0 <= b < 2 ^ n -> 0 <= Z.lor a b < 2 ^ n.
Proof.
  intros Hn Ha Hb.
  assert (H0 : 0 <= Z.lor a b) by (apply Z.lor_nonneg; lia).
  split; [exact H0|].
  destruct (Z.eq_dec (Z.lor a b) 0) as [E|E].
  - rewrite E. apply Z.pow_pos_nonneg; lia.
  - apply Z.log2_lt_pow2; [lia|].
    rewrite Z.log2_lor by lia.
    assert (La : Z.log2 a < n).
    { destruct (Z.eq_dec a 0) as [->|Na]; [exact Hn | apply Z.log2_lt_pow2; lia]. }
    assert (Lb : Z.log2 b < n).
    { destruct (Z.eq_dec b 0) as [->|Nb]; [exact Hn | apply Z.log2_lt_pow2; lia]. }
    lia.
Qed.

Lemma pack12_range (hi lo : Z) :
  0 <= hi <= 255 -> 0 <= lo <= 15 -> 0 <= Z.lor (Z.shiftl hi 4) lo < 4096.
Proof.
  intros Hhi Hlo. change 4096 with (2 ^ 12).
  apply lor_lt_pow2; [lia | | simpl; lia].
  rewrite Z.shiftl_mul_pow2 by lia. simpl. lia.
Qed.

Lemma low_nibble_range (x : Z) : 0 <= Z.land x 0x0F <= 15.
Proof.
  assert (E : Z.land x 0x0F = x mod 16) by (apply (Z.land_ones x 4); lia).
  rewrite E. pose proof (Z.mod_pos_bound x 16 eq_refl). lia.
Qed.

Lemma high_nibble_range (x : Z) : 0 <= x <= 255 -> 0 <= Z.shiftr x 4 <= 15.
Proof.
  intros Hx. rewrite Z.shiftr_div_pow2 by lia. change (2 ^ 4) with 16.
  split; [apply Z.div_pos; lia|].
  assert (x / 16 < 16) by (apply Z.div_lt_upper_bound; lia). lia.
Qed.

(** A successful parse has read 32 calibration bytes after the sentinel. *)
Lemma parse_done_shape (data : list byte) (cal : calibration) :
  parse data = Done cal ->
  exists rest, data = xfe :: rest /\ (32 <= length rest)%nat.
Proof.
  intros H. destruct data as [|b rest]; [discriminate H|].
  destruct (Byte.byte_eq_dec b xfe) as [->|Hb].
  - destruct (Nat.lt_ge_cases (length rest) 32) as [Hs|Hl].
    + rewrite (parse_short rest Hs) in H. discriminate H.
    + now exists rest.
  - rewrite (parse_bad_sentinel b rest Hb) in H. discriminate H.
Qed.

(** C2 (as the code has it): H4 and H5 are the unsigned 12-bit patterns
    [(calib[28] << 4) | (calib[29] & 0x0F)] and
    [(calib[30] << 4) | (calib[29] >> 4)], always in [0, 4095]: no
    two's-complement reinterpretation takes place. *)
Theorem dig_H4_H5_unsigned (data : list byte) (cal : calibration) :
  parse data = Done cal ->
  exists c28 c29 c30,
    nth_error (slice data 1 33) 28 = Some c28
    /\ nth_error (slice data 1 33) 29 = Some c29
    /\ nth_error (slice data 1 33) 30 = Some c30
    /\ dig_H4 cal = Z.lor (Z.shiftl (byte_val c28) 4) (Z.land (byte_val c29) 0x0F)
    /\ dig_H5 cal = Z.lor (Z.shiftl (byte_val c30) 4) (Z.shiftr (byte_val c29) 4)
    /\ 0 <= dig_H4 cal < 4096
    /\ 0 <= dig_H5 cal < 4096.
Proof.
  intros H.
  destruct (parse_done_shape data cal H) as (rest & -> & Hlen).
  do 32 (destruct rest as [|? rest]; [simpl in Hlen; lia|]).
  rewrite parse_cons in H. change (byte_val xfe =? 0xFE) with true in H.
  cbv [negb slice Nat.sub skipn firstn read_calib bind getitem nth_error] in H.
  injection H as <-. cbn [dig_H4 dig_H5].
  cbv [slice Nat.sub skipn firstn nth_error].
  do 3 eexists. do 5 (split; [reflexivity|]).
  split.
  - apply pack12_range; [apply byte_val_range | apply low_nibble_range].
  - apply pack12_range; [apply byte_val_range | apply high_nibble_range, byte_val_range].
Qed.

(** Instance of [dig_H4_H5_unsigned] on the capture's calibration line. *)
Lemma dig_H4_H5_unsigned_witness :
  parse capture_head = Done capture_cal
  /\ 0 <= dig_H4 capture_cal < 4096
  /\ 0 <= dig_H5 capture_cal < 4096.
Proof.
  split; [reflexivity|].
  destruct (dig_H4_H5_unsigned capture_head capture_cal)
    as (c28 & c29 & c30 & _ & _ & _ & _ & _ & H4 & H5); [reflexivity|].
  split; assumption.
Defined.

(** C2 (as the spec words it) fails: with bit 11 of both packed patterns set
    the parsed fields stay positive and differ from the two's-complement
    reading. *)
Lemma dig_H4_H5_top_bit_positive :
  exists cal,
    parse calib_top_bit = Done cal
    /\ dig_H4 cal = 0xFF0 /\ Z.testbit 0xFF0 11 = true
    /\ dig_H4 cal <> twos_complement12 0xFF0 /\ 0 < dig_H4 cal
    /\ dig_H5 cal = 0x802 /\ Z.testbit 0x802 11 = true
    /\ dig_H5 cal <> twos_complement12 0x802 /\ 0 < dig_H5 cal.
Proof.
  eexists. split; [reflexivity|]. cbn [dig_H4 dig_H5].
  repeat (split; [vm_compute; first [reflexivity | discriminate]|]).
  reflexivity.
Qed.

(** ** The three calculators *)

(** The guard [if var1 != 0] keeps [//] from raising. *)
Lemma pressure_done (cal : calibration) (tf adc_P : Z) :
  pressure cal tf adc_P = Done (pressure_value cal tf adc_P).
Proof.
  unfold pressure, pressure_value, pressure_quotient, floordiv.
  destruct (pressure_var1 cal tf =? 0); reflexivity.
Qed.

Lemma compute_done (cal : calibration) (adc_T adc_P adc_H : Z) :
  compute cal adc_T adc_P adc_H =
  Done (temperature cal adc_T,
        pressure_value cal (t_fine cal adc_T) adc_P,
        humidity cal (t_fine cal adc_T) adc_H).
Proof. unfold compute. rewrite pressure_done. reflexivity. Qed.

Lemma shiftr_asr (a n : Z) : 0 <= n -> Z.shiftr a n = asr a n.
Proof. intros Hn. unfold asr. now apply Z.shiftr_div_pow2. Qed.

(** C1: for every calibration set and ADC triplet the stored temperature is
    ((t_fine * 5 + 128) >> 8) / 100 with t_fine = var1 + var2,
    var1 = ((adc_T >> 3) - (T1 << 1)) * T2 >> 11, x = (adc_T >> 4) - T1 and
    var2 = ((x * x) >> 12) * T3 >> 14, every shift being the floor
    (sign-preserving) one. *)
Theorem temperature_formula (cal : calibration) (adc_T adc_P adc_H : Z) :
  exists pres hum,
    compute cal adc_T adc_P adc_H =
    Done (PyFloat (spec_temperature (dig_T1 cal) (dig_T2 cal) (dig_T3 cal) adc_T),
          pres, hum).
Proof.
  rewrite compute_done. do 2 eexists.
  unfold temperature, truediv, t_fine, spec_temperature.
  rewrite !shiftr_asr by lia. reflexivity.
Qed.

(** C3: when the divisor var1 is not zero, the quotient of
    ((p << 31) - var2) * 3125 by var1 is the floor of the exact rational
    quotient, whatever the signs: it is the integer q with
    q <= dividend / var1 < q + 1. *)
Theorem pressure_quotient_floor (cal : calibration) (adc_T adc_P : Z) :
  pressure_var1 cal (t_fine cal adc_T) <> 0 ->
  let exact := (inject_Z (pressure_dividend cal (t_fine cal adc_T) adc_P)
                / inject_Z (pressure_var1 cal (t_fine cal adc_T)))%Q in
  pressure_quotient cal (t_fine cal adc_T) adc_P = Done (Qfloor exact)
  /\ (inject_Z (Qfloor exact) <= exact)%Q
  /\ (exact < inject_Z (Qfloor exact + 1))%Q.
Proof.
  intros Hv exact. split; [|split].
  - unfold pressure_quotient, floordiv.
    destruct (Z.eqb_spec (pressure_var1 cal (t_fine cal adc_T)) 0) as [E|_];
      [contradiction|].
    now rewrite Zdiv_Qdiv.
  - apply Qfloor_le.
  - apply Qlt_floor.
Qed.

(** Instance of [pressure_quotient_floor] with a negative dividend: the
    quotient is the floor, one below the quotient truncated toward zero. *)
Lemma pressure_quotient_floor_witness :
  pressure_var1 cal_negative_dividend (t_fine cal_negative_dividend 519888) <> 0
  /\ pressure_dividend cal_negative_dividend (t_fine cal_negative_dividend 519888) 1048575 < 0
  /\ pressure_quotient cal_negative_dividend (t_fine cal_negative_dividend 519888) 1048575
     = Done (-30677343085715)
  /\ Z.quot (pressure_dividend cal_negative_dividend
               (t_fine cal_negative_dividend 519888) 1048575)
            (pressure_var1 cal_negative_dividend (t_fine cal_negative_dividend 519888))
     = -30677343085714.
Proof.
  assert (Hv : pressure_var1 cal_negative_dividend
                 (t_fine cal_negative_dividend 519888) <> 0)
    by (vm_compute; discriminate).
  split; [exact Hv|]. split; [reflexivity|]. split; [|vm_compute; reflexivity].
  rewrite (proj1 (pressure_quotient_floor cal_negative_dividend 519888 1048575 Hv)).
  vm_compute. reflexivity.
Defined.

Lemma humidity_clamped_range (cal : calibration) (tf adc_H : Z) :
  0 <= humidity_clamped cal tf adc_H <= 419430400.
Proof. unfold humidity_clamped. lia. Qed.

Lemma humidity_clamped_cases (cal : calibration) (tf adc_H : Z) :
  humidity_clamped cal tf adc_H =
  if humidity_raw cal tf adc_H <? 0 then 0
  else if 419430400 <? humidity_raw cal tf adc_H then 419430400
       else humidity_raw cal tf adc_H.
Proof.
  unfold humidity_clamped.
  destruct (Z.ltb_spec (humidity_raw cal tf adc_H) 0);
    destruct (Z.ltb_spec 419430400 (humidity_raw cal tf adc_H)); lia.
Qed.

Lemma shiftr12_range (v : Z) :
  0 <= v <= 419430400 -> 0 <= Z.shiftr v 12 <= 102400.
Proof.
  intros Hv. rewrite Z.shiftr_div_pow2 by lia. change (2 ^ 12) with 4096.
  split; [apply Z.div_pos; lia|].
  assert (v / 4096 < 102401) by (apply Z.div_lt_upper_bound; lia). lia.
Qed.

(** C4: for every calibration set and ADC triplet the stored humidity lies
    in [0, 100]: v is saturated to [0, 419430400] (below 0 gives 0, above
    419430400 gives 419430400) before the shift by 12 and the division by
    1024. *)
Theorem humidity_range (cal : calibration) (adc_T adc_P adc_H : Z) :
  exists temp pres hum,
    compute cal adc_T adc_P adc_H = Done (temp, pres, hum)
    /\ hum = truediv (Z.shiftr (humidity_clamped cal (t_fine cal adc_T) adc_H) 12) 1024
    /\ humidity_clamped cal (t_fine cal adc_T) adc_H =
       (if humidity_raw cal (t_fine cal adc_T) adc_H <? 0 then 0
        else if 419430400 <? humidity_raw cal (t_fine cal adc_T) adc_H then 419430400
             else humidity_raw cal (t_fine cal adc_T) adc_H)
    /\ (0 <= pynum hum <= 102400 # 1024)%Q
    /\ (0 <= pynum hum <= 100)%Q.
Proof.
  rewrite compute_done. do 3 eexists. split; [reflexivity|].
  split; [reflexivity|]. split; [apply humidity_clamped_cases|].
  pose proof (shiftr12_range _ (humidity_clamped_range cal (t_fine cal adc_T) adc_H)) as Hs.
  unfold humidity, truediv, pynum, Qle. cbn [Qnum Qden].
  repeat split; lia.
Qed.

(** ** One pass of the loop *)

Lemma getitem_byte_at (s : list byte) (k : nat) :
  (k < length s)%nat -> getitem s k = Done (byte_at s k).
Proof.
  intros H. destruct (getitem_lt s k H) as (b & Eb & Eg).
  unfold byte_at. now rewrite Eb.
Qed.

Lemma byte_at_payload (frames : list byte) (k j : nat) :
  (j < 8)%nat -> byte_at (payload_at frames k) j = byte_at frames (k + (j + 1)).
Proof.
  intros Hj. unfold byte_at, payload_at.
  rewrite nth_error_firstn, nth_error_skipn.
  destruct (Nat.ltb_spec j 8) as [_|H]; [|lia].
  replace (k + 1 + j)%nat with (k + (j + 1))%nat by lia. reflexivity.
Qed.

Lemma loop_body_skip (cal : calibration) (frames : list byte) (st : state) (b : byte) :
  nth_error frames (i st) = Some b -> b <> xff ->
  loop_body cal frames st = Done (skip1 st).
Proof.
  intros Eb Hb. unfold loop_body. rewrite (getitem_nth _ _ _ Eb). cbn [bind].
  destruct (Z.eqb_spec (byte_val b) 0xFF) as [E|_]; [|reflexivity].
  exfalso. apply Hb. now apply byte_val_inj.
Qed.

Lemma loop_body_frame (cal : calibration) (frames : list byte) (st : state) :
  (i st + 8 < length frames)%nat -> nth_error frames (i st) = Some xff ->
  loop_body cal frames st = Done (push st (measure cal (payload_at frames (i st)))).
Proof.
  intros Hg Eb. unfold loop_body. rewrite (getitem_nth _ _ _ Eb). cbn [bind].
  change (byte_val xff =? 0xFF) with true. cbn [negb].
  rewrite !getitem_byte_at by lia. cbn [bind].
  rewrite compute_done. cbn [bind].
  unfold push, measure, payload_adc_T, payload_adc_P, payload_adc_H.
  rewrite !byte_at_payload by lia. reflexivity.
Qed.

Lemma while_loop_stop (cal : calibration) (frames : list byte) (fuel : nat) (st : state) :
  (length frames <= i st + 8)%nat -> while_loop cal frames fuel st = Done st.
Proof.
  intros H. destruct fuel; simpl;
    destruct (Nat.ltb_spec (i st + 8) (length frames)); (lia || reflexivity).
Qed.

Lemma while_loop_step (cal : calibration) (frames : list byte) (fuel : nat) (st : state) :
  (i st + 8 < length frames)%nat ->
  while_loop cal frames (S fuel) st =
  (st' <- loop_body cal frames st ;; while_loop cal frames fuel st').
Proof.
  intros H. simpl.
  destruct (Nat.ltb_spec (i st + 8) (length frames)); [reflexivity | lia].
Qed.

(** ** The list-level reading of the scan *)

Lemma decode_aux_skipn (k : nat) : forall l, decode_aux k l = decode (skipn k l).
Proof.
  induction k as [|k IH]; intros l; [reflexivity|].
  destruct l as [|b rest]; [reflexivity|]. simpl. apply IH.
Qed.

Lemma decode_short (l : list byte) : (length l <= 8)%nat -> decode l = [].
Proof.
  intros H. destruct l as [|b rest]; [reflexivity|].
  unfold decode. cbn [decode_aux]. simpl in H.
  destruct (Nat.leb_spec 8 (length rest)); [lia | reflexivity].
Qed.

Lemma decode_noise (b : byte) (rest : list byte) :
  b <> xff -> (8 <= length rest)%nat -> decode (b :: rest) = decode rest.
Proof.
  intros Hb H. unfold decode. cbn [decode_aux].
  destruct (Nat.leb_spec 8 (length rest)); [|lia].
  destruct (Z.eqb_spec (byte_val b) 0xFF) as [E|_]; [|reflexivity].
  exfalso. apply Hb. now apply byte_val_inj.
Qed.

Lemma decode_sentinel (rest : list byte) :
  (8 <= length rest)%nat ->
  decode (xff :: rest) = firstn 8 rest :: decode (skipn 8 rest).
Proof.
  intros H. unfold decode at 1. cbn [decode_aux].
  destruct (Nat.leb_spec 8 (length rest)); [|lia].
  change (byte_val xff =? 0xFF) with true. cbv iota.
  now rewrite decode_aux_skipn.
Qed.

Lemma skipn_nth_error (A : Type) (l : list A) (k : nat) (a : A) :
  nth_error l k = Some a -> skipn k l = a :: skipn (S k) l.
Proof.
  revert l. induction k as [|k IH]; intros [|x l] H; try discriminate.
  - simpl in H. now injection H as ->.
  - simpl in H. rewrite !skipn_cons. now apply IH.
Qed.

Lemma extend_nil (st : state) : extend st (i st) [] = st.
Proof. destruct st. unfold extend. simpl. now rewrite !app_nil_r. Qed.

Lemma extend_push (st : state) (m : measurement) (n : nat) (ms : list measurement) :
  extend (push st m) n ms = extend st n (m :: ms).
Proof. unfold extend, push. simpl. now rewrite <- !app_assoc. Qed.

Lemma extend_skip1 (st : state) (n : nat) (ms : list measurement) :
  extend (skip1 st) n ms = extend st n ms.
Proof. reflexivity. Qed.

(** With fuel for every remaining byte the loop ends normally, and its
    lists are the ones it started from followed by one measurement per
    payload of [decode], in that order. *)
Lemma while_loop_decode (cal : calibration) (frames : list byte) :
  forall (fuel : nat) (st : state),
    (length frames - i st <= fuel)%nat ->
    exists n,
      while_loop cal frames fuel st =
      Done (extend st n (map (measure cal) (decode (skipn (i st) frames)))).
Proof.
  induction fuel as [|fuel IH]; intros st Hf.
  - rewrite while_loop_stop by lia. rewrite skipn_all2 by lia.
    exists (i st). now rewrite extend_nil.
  - destruct (Nat.lt_ge_cases (i st + 8) (length frames)) as [Hg|Hg].
    + rewrite while_loop_step by exact Hg.
      destruct (nth_error frames (i st)) as [b|] eqn:Eb;
        [|apply nth_error_None in Eb; lia].
      rewrite (skipn_nth_error _ _ _ _ Eb).
      assert (Hlen : length (skipn (S (i st)) frames) = (length frames - S (i st))%nat)
        by apply length_skipn.
      destruct (Byte.byte_eq_dec b xff) as [->|Hb].
      * rewrite (loop_body_frame cal frames st Hg Eb). cbn [bind].
        destruct (IH (push st (measure cal (payload_at frames (i st))))) as [n Hn];
          [simpl; lia|].
        exists n. rewrite Hn, extend_push. rewrite decode_sentinel by lia.
        rewrite skipn_skipn. cbn [map push i]. unfold payload_at.
        replace (i st + 1)%nat with (S (i st)) by lia.
        replace (8 + S (i st))%nat with (i st + 9)%nat by lia.
        reflexivity.
      * rewrite (loop_body_skip cal frames st b Eb Hb). cbn [bind].
        destruct (IH (skip1 st)) as [n Hn]; [simpl; lia|].
        exists n. rewrite Hn, extend_skip1. rewrite decode_noise by (trivial; lia).
        cbn [skip1 i]. replace (i st + 1)%nat with (S (i st)) by lia.
        reflexivity.
    + rewrite while_loop_stop by lia.
      rewrite decode_short by (rewrite length_skipn; lia).
      exists (i st). now rewrite extend_nil.
Qed.

Lemma scan_decode (cal : calibration) (frames : list byte) :
  exists n, scan cal frames = Done (extend init n (map (measure cal) (decode frames))).
Proof.
  unfold scan.
  destruct (while_loop_decode cal frames (length frames) init) as [n Hn];
    [simpl; lia|].
  exists n. exact Hn.
Qed.

Lemma decode_gap (gap l : list byte) :
  no_sentinel gap -> (9 <= length l)%nat -> decode (gap ++ l) = decode l.
Proof.
  intros Hgap Hl. induction Hgap as [|b gap Hb _ IH]; [reflexivity|].
  cbn [app]. rewrite decode_noise; [exact IH | exact Hb |].
  rewrite length_app. lia.
Qed.

Lemma decode_frame (payload rest : list byte) :
  length payload = 8%nat -> decode (xff :: payload ++ rest) = payload :: decode rest.
Proof.
  intros Hp. rewrite decode_sentinel by (rewrite length_app; lia).
  assert (Hf : firstn 8 (payload ++ rest) = payload).
  { rewrite <- Hp, firstn_app, Nat.sub_diag, firstn_all. apply app_nil_r. }
  assert (Hs : skipn 8 (payload ++ rest) = rest).
  { rewrite <- Hp, skipn_app, Nat.sub_diag, skipn_all. reflexivity. }
  now rewrite Hf, Hs.
Qed.

Lemma layout_cons (gap payload : list byte) (items : list (list byte * list byte))
      (rest : list byte) :
  layout ((gap, payload) :: items) ++ rest
  = gap ++ xff :: payload ++ layout items ++ rest.
Proof.
  unfold layout. cbn [map concat fst snd].
  rewrite <- !app_assoc. reflexivity.
Qed.

Lemma decode_layout (items : list (list byte * list byte)) (rest : list byte) :
  Forall well_formed items ->
  decode (layout items ++ rest) = map snd items ++ decode rest.
Proof.
  intros Hw. induction Hw as [|[gap payload] items [Hgap Hp] _ IH]; [reflexivity|].
  cbn [fst snd] in Hgap, Hp.
  rewrite layout_cons, decode_gap; [| exact Hgap | simpl; rewrite length_app; lia].
  rewrite decode_frame by exact Hp. cbn [map snd app]. now rewrite IH.
Qed.

(** Stray bytes followed by at most eight more bytes hold no frame. *)
Lemma decode_gap_tail (gap tail : list byte) :
  no_sentinel gap -> (length tail <= 8)%nat -> decode (gap ++ tail) = [].
Proof.
  intros Hg Ht. induction Hg as [|b gap Hb _ IH]; [now apply decode_short|].
  cbn [app]. destruct (Nat.le_gt_cases 8 (length (gap ++ tail))) as [H|H].
  - now rewrite decode_noise.
  - apply decode_short. simpl. lia.
Qed.

(** Over a run of bytes that are not the sentinel, with a whole frame's
    worth of bytes behind it, the loop spends one pass per byte and changes
    nothing but the cursor. *)
Lemma while_loop_noise (cal : calibration) (noise : list byte) :
  forall (pre l : list byte) (fuel : nat) (st : state),
    no_sentinel noise -> (9 <= length l)%nat -> i st = length pre ->
    while_loop cal (pre ++ noise ++ l) (length noise + fuel) st
    = while_loop cal (pre ++ noise ++ l) fuel
        (mkState (i st + length noise) (temperatures st) (pressures st) (humidities st)).
Proof.
  induction noise as [|b ns IH]; intros pre l fuel st Hn Hl Hi.
  - destruct st as [c ts ps hs]. cbn [length Nat.add i temperatures pressures humidities].
    now rewrite Nat.add_0_r.
  - inversion Hn as [|? ? Hb Hns]; subst.
    cbn [length Nat.add].
    rewrite while_loop_step by (rewrite !length_app; simpl; lia).
    assert (Eb : nth_error (pre ++ (b :: ns) ++ l) (i st) = Some b).
    { rewrite Hi, nth_error_app2, Nat.sub_diag by lia. reflexivity. }
    rewrite (loop_body_skip cal _ st b Eb Hb). cbn [bind].
    change ((b :: ns) ++ l) with ([b] ++ ns ++ l). rewrite app_assoc.
    rewrite (IH (pre ++ [b]) l fuel (skip1 st) Hns Hl)
      by (simpl; rewrite length_app, Hi; simpl; lia).
    cbn [skip1 i temperatures pressures humidities].
    replace (i st + 1 + length ns)%nat with (i st + S (length ns))%nat by lia.
    reflexivity.
Qed.

(** A pass that ends normally leaves what was stored in place and stores at
    most one measurement. *)
Lemma loop_body_appends (cal : calibration) (frames : list byte) (st st' : state) :
  loop_body cal frames st = Done st' ->
  exists ms, (length ms <= 1)%nat /\ st' = extend st (i st') ms.
Proof.
  unfold loop_body. intros H.
  destruct (getitem frames (i st)) as [f0| |]; cbn [bind] in H; try discriminate H.
  destruct (negb (f0 =? 0xFF)).
  - injection H as <-. exists []. split; [simpl; lia|].
    unfold extend. simpl. now rewrite !app_nil_r.
  - repeat match type of H with
           | context [getitem ?s ?k] =>
               destruct (getitem s k); cbn [bind] in H; try discriminate H
           end.
    rewrite compute_done in H. cbn [bind] in H. injection H as <-.
    eexists [(_, _, _)]. split; [simpl; lia | reflexivity].
Qed.

Lemma extend_extend (st : state) (n m : nat) (ms ms' : list measurement) :
  extend (extend st n ms) m ms' = extend st m (ms ++ ms').
Proof. unfold extend. simpl. now rewrite !map_app, !app_assoc. Qed.

Lemma while_loop_appends (cal : calibration) (frames : list byte) :
  forall (fuel : nat) (st st' : state),
    while_loop cal frames fuel st = Done st' ->
    exists ms, st' = extend st (i st') ms.
Proof.
  induction fuel as [|fuel IH]; intros st st' H.
  - simpl in H. destruct (i st + 8 <? length frames)%nat; [discriminate|].
    injection H as <-. exists []. now rewrite extend_nil.
  - simpl in H. destruct (i st + 8 <? length frames)%nat.
    + destruct (loop_body cal frames st) as [st1| |] eqn:E1; cbn [bind] in H;
        try discriminate H.
      destruct (loop_body_appends _ _ _ _ E1) as (ms1 & _ & H1).
      destruct (IH _ _ H) as (ms2 & H2).
      exists (ms1 ++ ms2). rewrite H2 at 1. rewrite H1 at 1.
      apply extend_extend.
    + injection H as <-. exists []. now rewrite extend_nil.
Qed.

(** ** The scan as a whole *)

(** C7: a buffer of N - 1 whole frames followed by a last sentinel with
    fewer than 8 bytes behind it (stray bytes allowed before any sentinel)
    gives exactly N - 1 measurements, those of the whole frames, and the
    scan ends normally. *)
Theorem truncated_tail (cal : calibration) (items : list (list byte * list byte))
        (gap tail : list byte) :
  Forall well_formed items -> no_sentinel gap -> (length tail < 8)%nat ->
  exists st,
    scan cal (layout items ++ gap ++ xff :: tail) = Done st
    /\ temperatures st = map (fun it => m_temperature (measure cal (snd it))) items
    /\ pressures st = map (fun it => m_pressure (measure cal (snd it))) items
    /\ humidities st = map (fun it => m_humidity (measure cal (snd it))) items
    /\ length (temperatures st) = length items
    /\ length (pressures st) = length items
    /\ length (humidities st) = length items.
Proof.
  intros Hw Hg Ht.
  destruct (scan_decode cal (layout items ++ gap ++ xff :: tail)) as [n Hn].
  rewrite decode_layout, decode_gap_tail, app_nil_r in Hn by (trivial; simpl; lia).
  eexists. split; [exact Hn|].
  unfold extend, init. cbn [temperatures pressures humidities app].
  rewrite !map_map, !length_map. repeat split.
Qed.

(** Instance of [truncated_tail]: two whole frames, one of them after a
    stray byte, then a sentinel with two bytes behind it. *)
Lemma truncated_tail_witness :
  exists st,
    scan capture_cal
         (layout [([], first_payload); ([x00], second_payload)]
          ++ [] ++ xff :: [x7f; x3e])
    = Done st
    /\ length (temperatures st) = 2%nat.
Proof.
  destruct (truncated_tail capture_cal
              [([], first_payload); ([x00], second_payload)] [] [x7f; x3e])
    as (st & Hs & _ & _ & _ & Hl & _).
  - repeat constructor; simpl; discriminate.
  - constructor.
  - simpl. lia.
  - exists st. split; [exact Hs | exact Hl].
Defined.

(** C8: a byte that is not 0xFF moves the cursor by exactly one and stores
    nothing; k such bytes in front of a whole frame cost k passes and leave
    the cursor on that frame's sentinel; and the measurements of a buffer
    are the same with or without such bytes inserted between two frames. *)
Theorem resynchronisation (cal : calibration) :
  (forall frames st b,
      nth_error frames (i st) = Some b -> b <> xff ->
      loop_body cal frames st = Done (skip1 st))
  /\ (forall items noise payload rest fuel st,
         no_sentinel noise -> length payload = 8%nat ->
         i st = length (layout items) ->
         while_loop cal (layout items ++ noise ++ xff :: payload ++ rest)
                    (length noise + fuel) st
         = while_loop cal (layout items ++ noise ++ xff :: payload ++ rest) fuel
             (mkState (i st + length noise)
                      (temperatures st) (pressures st) (humidities st)))
  /\ (forall items noise payload rest,
         Forall well_formed items -> no_sentinel noise -> length payload = 8%nat ->
         exists n n' ms,
           ms = map (measure cal) (map snd items ++ payload :: decode rest)
           /\ scan cal (layout items ++ xff :: payload ++ rest)
              = Done (extend init n ms)
           /\ scan cal (layout items ++ noise ++ xff :: payload ++ rest)
              = Done (extend init n' ms)).
Proof.
  split; [|split].
  - intros frames st b. apply loop_body_skip.
  - intros items noise payload rest fuel st Hn Hp Hi.
    apply while_loop_noise; [exact Hn | | exact Hi].
    simpl. rewrite length_app. lia.
  - intros items noise payload rest Hw Hn Hp.
    destruct (scan_decode cal (layout items ++ xff :: payload ++ rest)) as [n En].
    destruct (scan_decode cal (layout items ++ noise ++ xff :: payload ++ rest))
      as [n' En'].
    rewrite decode_layout, decode_frame in En by assumption.
    rewrite decode_layout, decode_gap, decode_frame in En'
      by (trivial; simpl; rewrite length_app; lia).
    exists n, n'. eexists. split; [reflexivity|]. split; assumption.
Qed.

(** Instance of [resynchronisation]: two stray bytes between the first two
    frames of the capture. *)
Lemma resynchronisation_witness :
  exists n n' ms,
    length ms = 2%nat
    /\ scan capture_cal (layout [([], first_payload)] ++ xff :: second_payload ++ [])
       = Done (extend init n ms)
    /\ scan capture_cal
            (layout [([], first_payload)] ++ [x00; x12] ++ xff :: second_payload ++ [])
       = Done (extend init n' ms).
Proof.
  destruct (proj2 (proj2 (resynchronisation capture_cal))
              [([], first_payload)] [x00; x12] second_payload [])
    as (n & n' & ms & Ems & En & En').
  - repeat constructor; simpl; discriminate.
  - repeat constructor; discriminate.
  - reflexivity.
  - exists n, n', ms. split; [rewrite Ems; reflexivity|]. split; assumption.
Defined.

(** C9: the scan of any buffer ends normally with one entry per frame found
    in each of the three lists, in the order of the frames in the buffer; a
    pass stores at most one measurement, and neither a pass nor the loop
    ever drops or reorders what was already stored. *)
Theorem series_in_frame_order (cal : calibration) (frames : list byte) :
  (exists n,
      scan cal frames =
      Done (mkState n
              (map (fun payload => m_temperature (measure cal payload)) (decode frames))
              (map (fun payload => m_pressure (measure cal payload)) (decode frames))
              (map (fun payload => m_humidity (measure cal payload)) (decode frames))))
  /\ (forall items gap tail,
         Forall well_formed items -> no_sentinel gap -> (length tail <= 8)%nat ->
         frames = layout items ++ gap ++ tail ->
         decode frames = map snd items)
  /\ (forall st st',
         loop_body cal frames st = Done st' ->
         exists ms, (length ms <= 1)%nat /\ st' = extend st (i st') ms)
  /\ (forall fuel st st',
         while_loop cal frames fuel st = Done st' ->
         exists ms, st' = extend st (i st') ms).
Proof.
  split; [|split; [|split]].
  - destruct (scan_decode cal frames) as [n Hn]. exists n. rewrite Hn.
    unfold extend, init. cbn [temperatures pressures humidities app].
    now rewrite !map_map.
  - intros items gap tail Hw Hg Ht ->.
    rewrite decode_layout, decode_gap_tail by assumption. apply app_nil_r.
  - apply loop_body_appends.
  - apply while_loop_appends.
Qed.

(** Instance of [series_in_frame_order] on the two frames of [capture_head]. *)
Lemma series_in_frame_order_witness :
  decode (slice_from capture_head 33) = [first_payload; second_payload]
  /\ exists ms,
       extend init 18 (map (measure capture_cal) [first_payload; second_payload])
       = extend init 18 ms.
Proof.
  pose proof (series_in_frame_order capture_cal (slice_from capture_head 33))
    as (_ & Hd & _ & Ha).
  split.
  - apply (Hd [([], first_payload); ([], second_payload)] [] []).
    + repeat constructor.
    + constructor.
    + simpl. lia.
    + reflexivity.
  - apply (Ha (length (slice_from capture_head 33)) init
              (extend init 18 (map (measure capture_cal) [first_payload; second_payload]))).
    vm_compute. reflexivity.
Defined.

(** C10: a 0xFF under the cursor with eight bytes behind it is taken as a
    frame whatever those bytes are; so a stray 0xFF in front of a genuine
    frame yields a measurement made of that frame's sentinel and first seven
    payload bytes, and the genuine frame is never decoded. *)
Theorem sentinel_only_detection :
  (forall cal frames st,
      (i st + 8 < length frames)%nat -> nth_error frames (i st) = Some xff ->
      loop_body cal frames st = Done (push st (measure cal (payload_at frames (i st)))))
  /\ (forall rest,
         (8 <= length rest)%nat ->
         decode (xff :: rest) = firstn 8 rest :: decode (skipn 8 rest))
  /\ (payload_at (xff :: first_frame) 0 = firstn 8 first_frame
      /\ scan capture_cal first_frame
         = Done (push init (measure capture_cal first_payload))
      /\ scan capture_cal (xff :: first_frame)
         = Done (push init (measure capture_cal (firstn 8 first_frame)))
      /\ measure capture_cal (firstn 8 first_frame)
         <> measure capture_cal first_payload).
Proof.
  split; [|split].
  - intros cal frames st. apply loop_body_frame.
  - intros rest. apply decode_sentinel.
  - split; [reflexivity|]. split; [vm_compute; reflexivity|].
    split; [vm_compute; reflexivity|]. vm_compute. discriminate.
Qed.

(** Instance of [sentinel_only_detection]: a frame whose payload is all 0xFF. *)
Lemma sentinel_only_detection_witness :
  loop_body capture_cal [xff; xff; xff; xff; xff; xff; xff; xff; xff] init
  = Done (push init (measure capture_cal [xff; xff; xff; xff; xff; xff; xff; xff])).
Proof.
  apply (proj1 sentinel_only_detection capture_cal
               [xff; xff; xff; xff; xff; xff; xff; xff; xff] init).
  - simpl. lia.
  - reflexivity.
Defined.

(** C5: when var1 is 0 after [var1 = (((1 << 47) + var1) * P1) >> 33] the
    pass raises nothing and stores 0 as the pressure next to the frame's
    temperature and humidity; the loop goes on from the next frame and ends
    normally. *)
Theorem pressure_degenerate (cal : calibration) (frames : list byte)
        (fuel : nat) (st : state) :
  (i st + 8 < length frames)%nat ->
  nth_error frames (i st) = Some xff ->
  pressure_var1 cal (t_fine cal (payload_adc_T (payload_at frames (i st)))) = 0 ->
  let payload := payload_at frames (i st) in
  let tf := t_fine cal (payload_adc_T payload) in
  let st' := mkState (i st + 9)
                     (temperatures st ++ [temperature cal (payload_adc_T payload)])
                     (pressures st ++ [PyInt 0])
                     (humidities st ++ [humidity cal tf (payload_adc_H payload)]) in
  pressure cal tf (payload_adc_P payload) = Done (PyInt 0)
  /\ (pynum (PyInt 0) == 0)%Q
  /\ loop_body cal frames st = Done st'
  /\ while_loop cal frames (S fuel) st = while_loop cal frames fuel st'
  /\ exists final ms,
       while_loop cal frames (length frames) st = Done final
       /\ final = extend st' (i final) ms.
Proof.
  intros Hg Es Hv payload tf st'.
  assert (Hp : pressure_value cal tf (payload_adc_P payload) = PyInt 0).
  { unfold pressure_value. subst tf payload. now rewrite Hv. }
  assert (Hb : loop_body cal frames st = Done st').
  { rewrite (loop_body_frame cal frames st Hg Es).
    unfold push, measure, m_temperature, m_pressure, m_humidity. cbn [fst snd].
    fold payload. fold tf. now rewrite Hp. }
  split; [rewrite pressure_done; now rewrite Hp|].
  split; [reflexivity|]. split; [exact Hb|].
  split; [rewrite while_loop_step by exact Hg; now rewrite Hb|].
  destruct (length frames) as [|len] eqn:El; [lia|].
  rewrite while_loop_step by lia. rewrite Hb. cbn [bind].
  destruct (while_loop_decode cal frames len st') as [n Hn]; [simpl; lia|].
  eexists. eexists. split; [exact Hn | reflexivity].
Qed.

(** Instance of [pressure_degenerate]: the first frame of the capture under
    a calibration set with P1 = 0. *)
Lemma pressure_degenerate_witness :
  loop_body cal_P1_zero first_frame init
  = Done (mkState 9 [PyFloat (2252 # 100)] [PyInt 0] [PyFloat (62910 # 1024)]).
Proof.
  refine (proj1 (proj2 (proj2
            (pressure_degenerate cal_P1_zero first_frame 0 init _ _ _)))).
  - simpl. lia.
  - reflexivity.
  - vm_compute. reflexivity.
Defined.

(** ** The script as a whole *)

(** With the sentinel in place and a whole calibration block behind it the
    script ends normally, with one entry per frame of the rest of the
    buffer in each list. *)
Lemma main_done (rest : list byte) :
  (32 <= length rest)%nat ->
  exists cal n,
    parse (xfe :: rest) = Done cal
    /\ main (xfe :: rest)
       = Done (extend init n (map (measure cal) (decode (slice_from (xfe :: rest) 33)))).
Proof.
  intros H. destruct (parse_long rest H) as [cal Hc].
  destruct (scan_decode cal (slice_from (xfe :: rest) 33)) as [n Hn].
  exists cal, n. split; [exact Hc|].
  unfold main. rewrite Hc. cbn [bind]. exact Hn.
Qed.

Example parse_capture_head : parse capture_head = Done capture_cal.
Proof. reflexivity. Qed.

Example main_capture_head :
  main capture_head
  = Done (mkState 18
            [PyFloat (2252 # 100); PyFloat (2257 # 100)]
            [PyFloat (23471488 # 25600); PyFloat (23471969 # 25600)]
            [PyFloat (62910 # 1024); PyFloat (62895 # 1024)]).
Proof. vm_compute. reflexivity. Qed.

(** * Further properties of the script *)

(** ** The integer readers [u16], [s16] and the signed byte *)

Lemma land_shiftl_low (a b n : Z) :
  0 <= n -> 0 <= b < 2 ^ n -> Z.land (Z.shiftl a n) b = 0.
Proof.
  intros Hn Hb. apply Z.bits_inj'. intros k Hk.
  rewrite Z.land_spec, Z.bits_0.
  destruct (Z.lt_ge_cases k n) as [Hlt|Hge].
  - now rewrite Z.shiftl_spec_low.
  - rewrite <- (Z.mod_small b (2 ^ n)) by lia.
    rewrite Z.mod_pow2_bits_high by lia. apply andb_false_r.
Qed.

Lemma lor_shiftl_add (a b n : Z) :
  0 <= n -> 0 <= b < 2 ^ n -> Z.lor (Z.shiftl a n) b = a * 2 ^ n + b.
Proof.
  intros Hn Hb. pose proof (land_shiftl_low a b n Hn Hb) as Hl.
  rewrite <- (Z.lxor_lor _ _ Hl), <- (Z.add_nocarry_lxor _ _ Hl).
  now rewrite Z.shiftl_mul_pow2.
Qed.

Lemma land_pow2 (a n : Z) :
  0 <= n -> Z.land a (2 ^ n) = if Z.testbit a n then 2 ^ n else 0.
Proof.
  intros Hn. apply Z.bits_inj'. intros k Hk.
  rewrite Z.land_spec, Z.pow2_bits_eqb by lia.
  destruct (Z.eqb_spec n k) as [->|Hne].
  - destruct (Z.testbit a k); [|now rewrite Z.bits_0].
    rewrite Z.pow2_bits_eqb, Z.eqb_refl by lia. reflexivity.
  - rewrite andb_false_r. destruct (Z.testbit a n); [|now rewrite Z.bits_0].
    rewrite Z.pow2_bits_eqb by lia. symmetry. now apply Z.eqb_neq.
Qed.

Lemma testbit15 (v : Z) :
  0 <= v < 65536 -> Z.testbit v 15 = negb (v <? 32768).
Proof.
  intros Hv. pose proof (Z.testbit_spec' v 15 ltac:(lia)) as H.
  change (2 ^ 15) with 32768 in H.
  destruct (Z.ltb_spec v 32768) as [Hlt|Hge]; cbn [negb].
  - rewrite Z.div_small in H by lia. destruct (Z.testbit v 15); [discriminate H | reflexivity].
  - assert (E : v / 32768 = 1).
    { symmetry. apply (Z.div_unique v 32768 1 (v - 32768)); lia. }
    rewrite E in H. destruct (Z.testbit v 15); [reflexivity | discriminate H].
Qed.

Lemma u16_value (lsb msb : Z) :
  0 <= lsb <= 255 -> u16 lsb msb = lsb + 256 * msb.
Proof.
  intros Hl. unfold u16. rewrite lor_shiftl_add by (simpl; lia).
  change (2 ^ 8) with 256. lia.
Qed.

(** [u16] reads two bytes, low byte first: the value is lsb + 256 * msb, it
    lies in [0, 65535], and both bytes can be read back from it. *)
Theorem u16_little_endian (lsb msb : Z) :
  0 <= lsb <= 255 -> 0 <= msb <= 255 ->
  u16 lsb msb = lsb + 256 * msb
  /\ 0 <= u16 lsb msb <= 65535
  /\ u16 lsb msb mod 256 = lsb
  /\ u16 lsb msb / 256 = msb.
Proof.
  intros Hl Hm. rewrite (u16_value lsb msb Hl).
  split; [reflexivity|]. split; [lia|]. split.
  - symmetry. apply (Z.mod_unique (lsb + 256 * msb) 256 msb lsb); lia.
  - symmetry. apply (Z.div_unique (lsb + 256 * msb) 256 msb lsb); lia.
Qed.

Lemma u16_little_endian_witness :
  u16 0xC9 0x6D = 28105 /\ u16 0xC9 0x6D mod 256 = 0xC9 /\ u16 0xC9 0x6D / 256 = 0x6D.
Proof.
  destruct (u16_little_endian 0xC9 0x6D) as (E & _ & Hm & Hd); [lia | lia |].
  split; [rewrite E; reflexivity|]. split; assumption.
Defined.

Lemma s16_value (lsb msb : Z) :
  0 <= lsb <= 255 -> 0 <= msb <= 255 ->
  s16 lsb msb = if u16 lsb msb <? 32768 then u16 lsb msb else u16 lsb msb - 65536.
Proof.
  intros Hl Hm. unfold s16. fold (u16 lsb msb).
  assert (Hu : 0 <= u16 lsb msb < 65536) by (rewrite u16_value; lia).
  assert (E : Z.land (u16 lsb msb) 0x8000
              = if Z.testbit (u16 lsb msb) 15 then 32768 else 0)
    by (apply (land_pow2 (u16 lsb msb) 15); lia).
  rewrite E, (testbit15 _ Hu).
  destruct (u16 lsb msb <? 32768); reflexivity.
Qed.

(** [s16] is the two's-complement reading of the same two bytes: the
    unsigned value when it is below 32768, that value minus 65536 otherwise;
    it lies in [-32768, 32767] and is congruent to the unsigned value modulo
    65536. *)
Theorem s16_twos_complement (lsb msb : Z) :
  0 <= lsb <= 255 -> 0 <= msb <= 255 ->
  s16 lsb msb = (if u16 lsb msb <? 32768 then u16 lsb msb else u16 lsb msb - 65536)
  /\ -32768 <= s16 lsb msb <= 32767
  /\ s16 lsb msb mod 65536 = u16 lsb msb.
Proof.
  intros Hl Hm. rewrite (s16_value lsb msb Hl Hm).
  assert (Hu : 0 <= u16 lsb msb < 65536) by (rewrite u16_value; lia).
  split; [reflexivity|].
  destruct (Z.ltb_spec (u16 lsb msb) 32768) as [Hlt|Hge].
  - split; [lia|]. apply Z.mod_small. lia.
  - split; [lia|]. symmetry.
    apply (Z.mod_unique (u16 lsb msb - 65536) 65536 (-1) (u16 lsb msb)); lia.
Qed.

Lemma s16_twos_complement_witness :
  s16 0x41 0xD6 = -10687 /\ -32768 <= s16 0x41 0xD6 <= 32767.
Proof.
  destruct (s16_twos_complement 0x41 0xD6) as (E & Hr & _); [lia | lia |].
  split; [rewrite E; reflexivity | exact Hr].
Defined.

(** The signed-byte reading used for H6 lies in [-128, 127] and is
    congruent to the byte modulo 256. *)
Theorem unpack_b_signed_byte (x : Z) :
  0 <= x <= 255 ->
  -128 <= unpack_b x <= 127 /\ unpack_b x mod 256 = x.
Proof.
  intros Hx. unfold unpack_b.
  destruct (Z.ltb_spec x 128) as [Hlt|Hge].
  - split; [lia|]. apply Z.mod_small. lia.
  - split; [lia|]. symmetry. apply (Z.mod_unique (x - 256) 256 (-1) x); lia.
Qed.

Lemma unpack_b_signed_byte_witness :
  -128 <= unpack_b 0xF0 <= 127 /\ unpack_b 0xF0 mod 256 = 0xF0.
Proof. apply (unpack_b_signed_byte 0xF0). lia. Defined.

(** ** What a parsed calibration set looks like *)

Lemma u16_bytes (a b : byte) : in_u16 (u16 (byte_val a) (byte_val b)).
Proof.
  pose proof (byte_val_range a). pose proof (byte_val_range b).
  unfold in_u16. rewrite u16_value; lia.
Qed.

Lemma s16_bytes (a b : byte) : in_s16 (s16 (byte_val a) (byte_val b)).
Proof.
  pose proof (byte_val_range a) as Ha. pose proof (byte_val_range b) as Hb.
  assert (Hu : 0 <= u16 (byte_val a) (byte_val b) < 65536) by (rewrite u16_value; lia).
  unfold in_s16. rewrite (s16_value _ _ Ha Hb).
  destruct (Z.ltb_spec (u16 (byte_val a) (byte_val b)) 32768); lia.
Qed.

Lemma unpack_b_byte (a : byte) : in_s8 (unpack_b (byte_val a)).
Proof.
  pose proof (byte_val_range a). unfold in_s8, unpack_b.
  destruct (Z.ltb_spec (byte_val a) 128); lia.
Qed.

(** Every calibration set that parsing returns has its fields in the
    ranges of their encodings: T1 and P1 unsigned 16-bit, T2, T3, P2..P9 and
    H2 signed 16-bit, H1 and H3 unsigned 8-bit, H6 signed 8-bit. *)
Theorem parsed_field_ranges (data : list byte) (cal : calibration) :
  parse data = Done cal ->
  in_u16 (dig_T1 cal) /\ in_s16 (dig_T2 cal) /\ in_s16 (dig_T3 cal)
  /\ in_u16 (dig_P1 cal) /\ in_s16 (dig_P2 cal) /\ in_s16 (dig_P3 cal)
  /\ in_s16 (dig_P4 cal) /\ in_s16 (dig_P5 cal) /\ in_s16 (dig_P6 cal)
  /\ in_s16 (dig_P7 cal) /\ in_s16 (dig_P8 cal) /\ in_s16 (dig_P9 cal)
  /\ in_u8 (dig_H1 cal) /\ in_s16 (dig_H2 cal) /\ in_u8 (dig_H3 cal)
  /\ in_s8 (dig_H6 cal).
Proof.
  intros H.
  destruct (parse_done_shape data cal H) as (rest & -> & Hlen).
  do 32 (destruct rest as [|? rest]; [simpl in Hlen; lia|]).
  rewrite parse_cons in H. change (byte_val xfe =? 0xFE) with true in H.
  cbv [negb slice Nat.sub skipn firstn read_calib bind getitem nth_error] in H.
  injection H as <-.
  cbn [dig_T1 dig_T2 dig_T3 dig_P1 dig_P2 dig_P3 dig_P4 dig_P5 dig_P6 dig_P7
       dig_P8 dig_P9 dig_H1 dig_H2 dig_H3 dig_H6].
  repeat match goal with
         | |- _ /\ _ => split
         | |- in_u16 _ => apply u16_bytes
         | |- in_s16 _ => apply s16_bytes
         | |- in_s8 _ => apply unpack_b_byte
         | |- in_u8 _ => apply byte_val_range
         end.
Qed.

Lemma parsed_field_ranges_witness :
  in_u16 (dig_T1 capture_cal) /\ in_s16 (dig_P2 capture_cal) /\ in_s8 (dig_H6 capture_cal).
Proof.
  destruct (parsed_field_ranges capture_head capture_cal)
    as (H1 & _ & _ & _ & H5 & _ & _ & _ & _ & _ & _ & _ & _ & _ & _ & H16);
    [reflexivity|].
  split; [exact H1|]. split; [exact H5 | exact H16].
Defined.

(** Parsing looks at the first 33 bytes only: whatever follows them - the
    frames - has no influence on the calibration set or on the error. *)
Theorem parse_first_33 (data : list byte) : parse data = parse (firstn 33 data).
Proof.
  destruct data as [|b rest]; [reflexivity|].
  change (firstn 33 (b :: rest)) with (b :: firstn 32 rest).
  rewrite !parse_cons. destruct (negb (byte_val b =? 0xFE)); [reflexivity|].
  unfold slice. cbn [skipn Nat.sub]. rewrite firstn_firstn. reflexivity.
Qed.

(** ** ADC packing *)

(** For three bytes the 20-bit packing is hi * 4096 + mid * 16 + lo / 16, in
    [0, 2^20): the low four bits of the third byte are dropped.  For two
    bytes the 16-bit packing is hi * 256 + lo, in [0, 65535]. *)
Theorem adc_packing (hi mid lo : Z) :
  in_u8 hi -> in_u8 mid -> in_u8 lo ->
  adc20 hi mid lo = hi * 4096 + mid * 16 + lo / 16
  /\ 0 <= adc20 hi mid lo < 1048576
  /\ adc16 hi lo = hi * 256 + lo
  /\ 0 <= adc16 hi lo <= 65535.
Proof.
  unfold in_u8. intros Hh Hm Hl.
  assert (E20 : adc20 hi mid lo = hi * 4096 + mid * 16 + lo / 16).
  { unfold adc20.
    assert (Em : Z.shiftl mid 4 = mid * 16) by (now rewrite Z.shiftl_mul_pow2).
    assert (El : Z.shiftr lo 4 = lo / 16) by (now rewrite Z.shiftr_div_pow2).
    rewrite Em, El.
    rewrite lor_shiftl_add by (change (2 ^ 12) with 4096; lia).
    change (2 ^ 12) with 4096.
    replace (hi * 4096 + mid * 16) with (Z.shiftl (hi * 256 + mid) 4)
      by (rewrite Z.shiftl_mul_pow2 by lia; change (2 ^ 4) with 16; lia).
    assert (Hq : 0 <= lo / 16 < 16) by (Z.div_mod_to_equations; lia).
    rewrite lor_shiftl_add by (change (2 ^ 4) with 16; lia).
    rewrite Z.shiftl_mul_pow2 by lia. reflexivity. }
  assert (E16 : adc16 hi lo = hi * 256 + lo).
  { unfold adc16. rewrite lor_shiftl_add by (change (2 ^ 8) with 256; lia).
    reflexivity. }
  assert (Hq : 0 <= lo / 16 < 16) by (Z.div_mod_to_equations; lia).
  rewrite E20, E16. repeat split; lia.
Qed.

Lemma adc_packing_witness :
  adc20 0x7F 0x3E 0x0F = 0x7F3E0 /\ adc16 0x76 0xDA = 0x76DA.
Proof.
  destruct (adc_packing 0x7F 0x3E 0x0F) as (E20 & _ & _ & _);
    [unfold in_u8; lia | unfold in_u8; lia | unfold in_u8; lia |].
  split; [rewrite E20; reflexivity | reflexivity].
Defined.

(** ** Consequences for the calculators *)

(** With P1 = 0 the divisor var1 is 0 whatever the frame holds, so every
    stored pressure is the int 0. *)
Theorem pressure_zero_when_P1_zero (cal : calibration) (tf adc_P : Z) :
  dig_P1 cal = 0 -> pressure cal tf adc_P = Done (PyInt 0).
Proof.
  intros H. rewrite pressure_done. unfold pressure_value, pressure_var1.
  rewrite H, Z.mul_0_r, Z.shiftr_0_l. reflexivity.
Qed.

Lemma pressure_zero_when_P1_zero_witness :
  pressure cal_P1_zero 113232 383248 = Done (PyInt 0).
Proof. apply (pressure_zero_when_P1_zero cal_P1_zero 113232 383248). reflexivity. Defined.

Lemma div_between (c d lo hi : Z) :
  0 < d -> lo * d <= c -> c < (hi + 1) * d -> lo <= c / d <= hi.
Proof. intros Hd Hlo Hhi. Z.div_mod_to_equations. nia. Qed.

(** With a 20-bit ADC value and coefficients in their encoded ranges,
    t_fine stays strictly between -2^22 and 2^22 and the temperature in
    hundredths of a degree between -81920 and 81920. *)
Theorem t_fine_bound (cal : calibration) (adc_T : Z) :
  0 <= adc_T < 1048576 ->
  in_u16 (dig_T1 cal) -> in_s16 (dig_T2 cal) -> in_s16 (dig_T3 cal) ->
  -4194304 < t_fine cal adc_T < 4194304
  /\ exists T, temperature cal adc_T = PyFloat (T # 100) /\ -81920 <= T <= 81920.
Proof.
  unfold in_u16, in_s16. intros Ha H1 H2 H3.
  assert (Ht : -4194304 < t_fine cal adc_T < 4194304).
  { unfold t_fine. rewrite !Z.shiftr_div_pow2, Z.shiftl_mul_pow2 by lia.
    change (2 ^ 3) with 8. change (2 ^ 4) with 16. change (2 ^ 1) with 2.
    change (2 ^ 11) with 2048. change (2 ^ 12) with 4096. change (2 ^ 14) with 16384.
    assert (Ha8 : 0 <= adc_T / 8 <= 131071) by (apply div_between; lia).
    assert (Ha16 : 0 <= adc_T / 16 <= 65535) by (apply div_between; lia).
    set (b := adc_T / 8 - dig_T1 cal * 2).
    set (x := adc_T / 16 - dig_T1 cal).
    assert (Hb : -131071 <= b <= 131071) by (subst b; lia).
    assert (Hx : -65535 <= x <= 65535) by (subst x; lia).
    assert (Hbt : -4294934528 <= b * dig_T2 cal <= 4294934528) by nia.
    assert (Hxx : 0 <= x * x <= 4294836225) by nia.
    assert (Hy : 0 <= x * x / 4096 <= 1048544) by (apply div_between; lia).
    set (y := x * x / 4096) in *.
    assert (Hyt : -34358689792 <= y * dig_T3 cal <= 34358689792) by nia.
    assert (Hv1 : -2097136 <= b * dig_T2 cal / 2048 <= 2097136)
      by (apply div_between; lia).
    assert (Hv2 : -2097088 <= y * dig_T3 cal / 16384 <= 2097088)
      by (apply div_between; lia).
    lia. }
  split; [exact Ht|].
  unfold temperature, truediv. eexists. split; [reflexivity|].
  rewrite Z.shiftr_div_pow2 by lia. change (2 ^ 8) with 256.
  apply div_between; lia.
Qed.

Lemma t_fine_bound_witness :
  -4194304 < t_fine capture_cal 0x7F3E0 < 4194304.
Proof.
  apply (t_fine_bound capture_cal 0x7F3E0);
    unfold in_u16, in_s16; cbn [dig_T1 dig_T2 dig_T3 capture_cal]; lia.
Defined.

(** ** Invariants of the scan *)

Lemma while_loop_invariant (cal : calibration) (frames : list byte) :
  forall (fuel : nat) (st st' : state),
    (i st <= length frames)%nat ->
    (9 * length (temperatures st) <= i st)%nat ->
    while_loop cal frames fuel st = Done st' ->
    (i st <= i st')%nat
    /\ (i st' <= length frames)%nat
    /\ (length frames <= i st' + 8)%nat
    /\ (9 * length (temperatures st') <= i st')%nat.
Proof.
  induction fuel as [|fuel IH]; intros st st' Hi Hc H.
  - simpl in H. destruct (Nat.ltb_spec (i st + 8) (length frames)); [discriminate H|].
    injection H as <-. lia.
  - destruct (Nat.lt_ge_cases (i st + 8) (length frames)) as [Hg|Hg].
    + rewrite while_loop_step in H by exact Hg.
      destruct (nth_error frames (i st)) as [b|] eqn:Eb;
        [|apply nth_error_None in Eb; lia].
      destruct (Byte.byte_eq_dec b xff) as [->|Hb].
      * rewrite (loop_body_frame cal frames st Hg Eb) in H. cbn [bind] in H.
        apply IH in H; cbn [push i temperatures] in *;
          rewrite ?length_app in *; simpl length in *; lia.
      * rewrite (loop_body_skip cal frames st b Eb Hb) in H. cbn [bind] in H.
        apply IH in H; cbn [skip1 i temperatures] in *; lia.
    + rewrite while_loop_stop in H by exact Hg. injection H as <-. lia.
Qed.

(** The scan of any buffer stops with the cursor inside the buffer and
    fewer than nine bytes left behind it: no read goes past the end, and at
    most eight trailing bytes stay unexamined. *)
Theorem scan_cursor_bounds (cal : calibration) (frames : list byte) :
  exists st,
    scan cal frames = Done st
    /\ (i st <= length frames)%nat
    /\ (length frames <= i st + 8)%nat.
Proof.
  destruct (scan_decode cal frames) as [n Hn].
  eexists. split; [exact Hn|].
  destruct (while_loop_invariant cal frames (length frames) init _
              (Nat.le_0_l _) (Nat.le_0_l _) Hn) as (_ & H1 & H2 & _).
  split; assumption.
Qed.

(** Every measurement costs nine bytes of the buffer: the scan never
    stores more than [length frames / 9] entries. *)
Theorem scan_count_bound (cal : calibration) (frames : list byte) :
  exists st,
    scan cal frames = Done st
    /\ (9 * length (temperatures st) <= length frames)%nat
    /\ length (pressures st) = length (temperatures st)
    /\ length (humidities st) = length (temperatures st).
Proof.
  destruct (scan_decode cal frames) as [n Hn].
  eexists. split; [exact Hn|].
  destruct (while_loop_invariant cal frames (length frames) init _
              (Nat.le_0_l _) (Nat.le_0_l _) Hn) as (_ & H1 & _ & H3).
  split; [lia|].
  unfold extend, init. cbn [temperatures pressures humidities app].
  now rewrite !length_map.
Qed.

(** A buffer of at most eight bytes, or one without any 0xFF, gives no
    measurement at all; the scan still ends normally. *)
Theorem scan_nothing_to_decode (cal : calibration) (frames : list byte) :
  (length frames <= 8)%nat \/ no_sentinel frames ->
  exists n, scan cal frames = Done (mkState n [] [] []).
Proof.
  intros H. destruct (scan_decode cal frames) as [n Hn].
  assert (E : decode frames = []).
  { destruct H as [H|H]; [now apply decode_short|].
    rewrite <- (app_nil_r frames). apply decode_gap_tail; [exact H | simpl; lia]. }
  rewrite E in Hn. exists n. exact Hn.
Qed.

Lemma scan_nothing_to_decode_witness :
  (exists n, scan capture_cal [xff; x7f; x3e; x00; x5d; x91; x00; x76]
             = Done (mkState n [] [] []))
  /\ (exists n, scan capture_cal [x00; x01; x02; x03; x04; x05; x06; x07; x08; x09; x0a]
                = Done (mkState n [] [] [])).
Proof.
  split.
  - apply (scan_nothing_to_decode capture_cal [xff; x7f; x3e; x00; x5d; x91; x00; x76]).
    left. simpl. lia.
  - apply (scan_nothing_to_decode capture_cal
             [x00; x01; x02; x03; x04; x05; x06; x07; x08; x09; x0a]).
    right. repeat constructor; discriminate.
Defined.

(** Scanning composes: the measurements of whole frames followed by any
    other bytes are the measurements of those frames followed by the
    measurements of the other bytes scanned on their own. *)
Theorem scan_layout_app (cal : calibration) (items : list (list byte * list byte))
        (rest : list byte) :
  Forall well_formed items ->
  exists n n' ms,
    scan cal rest = Done (extend init n ms)
    /\ scan cal (layout items ++ rest)
       = Done (extend init n' (map (measure cal) (map snd items) ++ ms)).
Proof.
  intros Hw.
  destruct (scan_decode cal rest) as [n Hn].
  destruct (scan_decode cal (layout items ++ rest)) as [n' Hn'].
  rewrite (decode_layout items rest Hw), map_app in Hn'.
  exists n, n'. eexists. split; [exact Hn | exact Hn'].
Qed.

Lemma scan_layout_app_witness :
  exists n n' ms,
    scan capture_cal (xff :: second_payload) = Done (extend init n ms)
    /\ scan capture_cal (layout [([x00], first_payload)] ++ xff :: second_payload)
       = Done (extend init n' (map (measure capture_cal) [first_payload] ++ ms)).
Proof.
  apply (scan_layout_app capture_cal [([x00], first_payload)] (xff :: second_payload)).
  repeat constructor; simpl; discriminate.
Defined.

(** ** The script from buffer to lists *)

Lemma parse_not_out_of_fuel (data : list byte) : parse data <> OutOfFuel.
Proof.
  destruct data as [|b rest]; [discriminate|].
  destruct (Byte.byte_eq_dec b xfe) as [->|Hb].
  - destruct (Nat.lt_ge_cases (length rest) 32) as [Hs|Hl].
    + rewrite (parse_short rest Hs). discriminate.
    + destruct (parse_long rest Hl) as [cal Hc]. rewrite Hc. discriminate.
  - rewrite (parse_bad_sentinel b rest Hb). discriminate.
Qed.

(** The only errors the script raises are those of the calibration step:
    it raises [e] exactly when parsing raises [e]; once parsing succeeds the
    frame loop always runs to its end, and the lists hold one entry per
    frame found in [data[33:]]. *)
Theorem main_outcome (data : list byte) :
  (forall e, main data = Raised e <-> parse data = Raised e)
  /\ main data <> OutOfFuel
  /\ (forall cal,
         parse data = Done cal ->
         exists n,
           main data
           = Done (extend init n (map (measure cal) (decode (slice_from data 33))))).
Proof.
  unfold main. pose proof (parse_not_out_of_fuel data) as Hf.
  destruct (parse data) as [cal|e|] eqn:Ep; [| |contradiction]; cbn [bind].
  - destruct (scan_decode cal (slice_from data 33)) as [n Hn]. rewrite Hn.
    split; [intros e; split; discriminate|]. split; [discriminate|].
    intros cal' E. injection E as <-. now exists n.
  - split; [intros e'; split; intros H; injection H as ->; reflexivity|].
    split; [discriminate|].
    intros cal E. discriminate E.
Qed.

Lemma main_outcome_witness :
  main [xfe; x00] = Raised IndexError
  /\ main [x00] = Raised (ValueError "Calibration start is not FE.").
Proof.
  split.
  - apply (proj1 (main_outcome [xfe; x00])). reflexivity.
  - apply (proj1 (main_outcome [x00])). reflexivity.
Defined.

(** ** The report loop *)

Lemma report_rows_seq (st : state) :
  forall (ms pre : list measurement),
    temperatures st = map m_temperature (pre ++ ms) ->
    pressures st = map m_pressure (pre ++ ms) ->
    humidities st = map m_humidity (pre ++ ms) ->
    report_rows st (seq (length pre) (length ms)) = Done (rows_from (length pre) ms).
Proof.
  induction ms as [|m ms IH]; intros pre Ht Hp Hh; [reflexivity|].
  cbn [length seq report_rows rows_from].
  unfold list_getitem.
  rewrite Ht, Hp, Hh, !nth_error_map, !nth_error_app2, Nat.sub_diag by lia.
  cbn [nth_error option_map bind].
  assert (E : (pre ++ m :: ms) = (pre ++ [m]) ++ ms) by (now rewrite <- app_assoc).
  rewrite E in Ht, Hp, Hh.
  pose proof (IH (pre ++ [m]) Ht Hp Hh) as Hr.
  rewrite length_app in Hr. cbn [length] in Hr.
  rewrite Nat.add_1_r in Hr. rewrite Hr. reflexivity.
Qed.

(** After a scan the report loop raises nothing: the three lists are
    aligned, and it visits one row per measurement, numbered from 0, in the
    order of the frames. *)
Theorem report_after_scan (cal : calibration) (frames : list byte) :
  exists st,
    scan cal frames = Done st
    /\ report st = Done (rows_from 0 (map (measure cal) (decode frames))).
Proof.
  destruct (scan_decode cal frames) as [n Hn].
  eexists. split; [exact Hn|].
  unfold report.
  set (ms := map (measure cal) (decode frames)).
  assert (El : length (temperatures (extend init n ms)) = length ms).
  { unfold extend, init. cbn [temperatures app]. apply length_map. }
  rewrite El. apply (report_rows_seq (extend init n ms) ms []); reflexivity.
Qed.
